(** * The DynamoDB attribute codec of aws-sdk-go-wrapper ([dynamodb/helper.go])

    A shallow embedding of [createAttributeValue], [getItemValue], [Marshal],
    [Unmarshal], [MarshalStringSlice], [createPointerSliceString] and
    [NewKeySchema], with the parts of Go's [strconv], [fmt] and [reflect]
    packages they call, followed by the properties of the codec.

    Conventions of the embedding:
    - a Go integer is a [Z]; where the Go code computes in [uint64] or [int64]
      the wrap-around is written out ([strconv.uint64], [strconv.int64]);
    - a Go [string] is a [string] (a sequence of bytes);
    - a slice is a [list]; a nil slice and an empty slice are both [[]] (the
      code only ever takes their [len] and ranges over them);
    - a Go map with string keys is a [gmap string _]; a nil map and an empty
      map are both [∅];
    - a pointer that the code tests against nil is an [option]; the element
      pointers of a [[]*string], of a [[]*SDK.AttributeValue] and the values
      of a [map[string]*SDK.AttributeValue] are taken to be non-nil and are
      modelled by the value they point to;
    - a run-time panic is an [outcome] of its own. *)

From stdpp Require Import gmap strings list.
From Stdlib Require Import ZArith Lia Ascii SpecFloat.

Set Warnings "-register-all".
Local Open Scope Z_scope.

(** ** Outcomes of a call: a returned value or a run-time panic *)

Inductive panic :=
| InterfaceConversion   (* a failed type assertion [v.(T)] *)
| IndexOutOfRange       (* [s[i]] with [i >= len(s)] *)
| NilDereference.       (* a method call or field access through nil *)

Inductive outcome (A : Type) : Type :=
| Returns (a : A)
| Panics (p : panic).
Arguments Returns {A} a.
Arguments Panics {A} p.

#[global] Instance outcome_ret : MRet outcome := λ A a, Returns a.
#[global] Instance outcome_bind : MBind outcome := λ A B f o,
  match o with
  | Returns a => f a
  | Panics p => Panics p
  end.

(** The value an outcome returns, [d] for a panic. *)
Definition returned {A} (d : A) (o : outcome A) : A :=
  match o with
  | Returns a => a
  | Panics _ => d
  end.

(** [s[i]] on a slice. *)
Definition index {A} (s : list A) (i : nat) : outcome A :=
  match s !! i with
  | Some x => Returns x
  | None => Panics IndexOutOfRange
  end.

(** [for _, x := range s { data = append(data, f(x)) }], starting from the nil
    slice. *)
Definition appendEach {A B} (f : A → B) (s : list A) : list B :=
  foldl (λ data x, data ++ [f x]) [] s.

(** ** [strconv]: the integer parser behind [strconv.Atoi]

    [Atoi(s)] is [ParseInt(s, 10, 0)] converted to [int]; the model is
    specialised to base 10, and [int] is 64 bits wide. A result is the pair
    Go returns: the value and the error ([None] for a nil error). *)

Module strconv.

Inductive error := ErrSyntax | ErrRange.

Definition IntSize : Z := 64.

(** Conversion to [uint64] and to [int64] (two's complement wrap-around). *)
Definition uint64 (z : Z) : Z := z mod 2 ^ 64.
Definition int64 (z : Z) : Z := (z + 2 ^ 63) mod 2 ^ 64 - 2 ^ 63.

Definition maxUint64 : Z := uint64 (uint64 (Z.shiftl 1 64) - 1).

(** The value of a decimal digit byte; [None] for any other byte (in base 10
    a letter is rejected like any other byte). *)
Definition digit (d : ascii) : option Z :=
  let c := Z.of_N (N_of_ascii d) in
  if (48 <=? c) && (c <=? 57) then Some (c - 48) else None.

(** The loop of [ParseUint] over the bytes of [s], [n] being the value
    accumulated so far. *)
Fixpoint parseDigits (s : string) (cutoff maxVal n : Z) : Z * option error :=
  match s with
  | EmptyString => (n, None)
  | String d s' =>
    match digit d with
    | None => (0, Some ErrSyntax)
    | Some v =>
      if cutoff <=? n then (maxVal, Some ErrRange)     (* n*base overflows *)
      else
        let n := uint64 (n * 10) in
        let n1 := uint64 (n + v) in
        if (n1 <? n) || (maxVal <? n1) then (maxVal, Some ErrRange)
        else parseDigits s' cutoff maxVal n1
    end
  end.

Definition ParseUint (s : string) (bitSize : Z) : Z * option error :=
  let bitSize := if bitSize =? 0 then IntSize else bitSize in
  match s with
  | EmptyString => (0, Some ErrSyntax)
  | _ =>
    let cutoff := maxUint64 / 10 + 1 in
    let maxVal := uint64 (uint64 (Z.shiftl 1 bitSize) - 1) in
    parseDigits s cutoff maxVal 0
  end.

Definition ParseInt (s : string) (bitSize : Z) : Z * option error :=
  let bitSize := if bitSize =? 0 then IntSize else bitSize in
  match s with
  | EmptyString => (0, Some ErrSyntax)
  | String c rest =>
    (* pick off the leading sign *)
    let neg := bool_decide (c = "-"%char) in
    let s' := if bool_decide (c = "+"%char) || neg then rest else s in
    (* convert unsigned and check the range *)
    match ParseUint s' bitSize with
    | (_, Some ErrSyntax) => (0, Some ErrSyntax)
    | (un, _) =>
      let cutoff := uint64 (Z.shiftl 1 (bitSize - 1)) in
      if negb neg && (cutoff <=? un) then (int64 (cutoff - 1), Some ErrRange)
      else if neg && (cutoff <? un) then (int64 (- int64 cutoff), Some ErrRange)
      else
        let n := int64 un in
        (if neg then int64 (- n) else n, None)
    end
  end.

Definition Atoi (s : string) : Z * option error := ParseInt s 0.

End strconv.

(** ** [fmt]: how [fmt.Sprint] prints an integer operand

    For an operand of an integer type the verb is [%d]: an optional minus sign
    and the decimal digits of the magnitude, most significant first, written
    from the end of a buffer by repeated division by ten. *)

Module fmt.

Definition digitChar (d : Z) : ascii := ascii_of_N (Z.to_N (48 + d)).

(** The digit loop: [for u >= 10 { buf[i] = '0' + u%10; u /= 10 }], then the
    leading digit. [fuel] bounds the number of digits. *)
Fixpoint fmtDigits (fuel : nat) (u : Z) (buf : string) : string :=
  match fuel with
  | O => buf
  | S fuel' =>
    if 10 <=? u then fmtDigits fuel' (u / 10) (String (digitChar (u mod 10)) buf)
    else String (digitChar u) buf
  end.

Definition fmtInteger (n : Z) : string :=
  let negative := n <? 0 in
  let u := if negative then - n else n in
  let buf := fmtDigits (S (Z.to_nat (Z.log2 u))) u EmptyString in
  if negative then String "-" buf else buf.

End fmt.

(** ** [reflect]: the kinds of Go types *)

Module reflect.

Inductive Kind :=
| Invalid | Bool | Int | Int8 | Int16 | Int32 | Int64
| Uint | Uint8 | Uint16 | Uint32 | Uint64 | Uintptr
| Float32 | Float64 | Complex64 | Complex128
| Array | Chan | Func | Interface | Map | Ptr | Slice | String | Struct
| UnsafePointer.

End reflect.

(** ** Native values: what a Go [interface{}] ([Any]) can hold *)

Inductive IntType :=
| TInt | TInt8 | TInt16 | TInt32 | TInt64
| TUint | TUint8 | TUint16 | TUint32 | TUint64 | TUintptr.

Inductive FloatType := TFloat32 | TFloat64.

(** A value together with its dynamic type. [[]byte] is [[]uint8], hence
    [VInts TUint8]. [VOther k] stands for a value of any dynamic type that has
    no constructor of its own here (a function, a channel, a struct, a
    [map[string]string], a named type, ...), of which the code looks at the
    kind [k] only. *)
Inductive Any :=
| Nil                                         (* the nil interface *)
| VString (s : string)                        (* string *)
| VInt (t : IntType) (n : Z)                  (* int, int8, ..., uintptr *)
| VFloat (t : FloatType) (f : spec_float)     (* float32, float64 *)
| VBool (b : bool)                            (* bool *)
| VStrings (l : list string)                  (* []string *)
| VInts (t : IntType) (l : list Z)            (* []int, ..., []byte *)
| VFloats (t : FloatType) (l : list spec_float)  (* []float32, []float64 *)
| VByteSlices (l : list (list Z))             (* [][]byte *)
| VIntPtrs (l : list Z)                       (* []*int *)
| VStringPtrs (l : list string)               (* []*string *)
| VList (l : list Any)                        (* []interface{} *)
| VMap (m : gmap string Any)                  (* map[string]interface{} *)
| VOther (k : reflect.Kind).

Abbreviation VBytes := (VInts TUint8).

Definition IntType_Kind (t : IntType) : reflect.Kind :=
  match t with
  | TInt => reflect.Int | TInt8 => reflect.Int8 | TInt16 => reflect.Int16
  | TInt32 => reflect.Int32 | TInt64 => reflect.Int64
  | TUint => reflect.Uint | TUint8 => reflect.Uint8 | TUint16 => reflect.Uint16
  | TUint32 => reflect.Uint32 | TUint64 => reflect.Uint64
  | TUintptr => reflect.Uintptr
  end.

(** [reflect.ValueOf(v).Kind()]; the zero [reflect.Value] of the nil interface
    has kind [Invalid]. *)
Definition Kind_of (v : Any) : reflect.Kind :=
  match v with
  | Nil => reflect.Invalid
  | VString _ => reflect.String
  | VInt t _ => IntType_Kind t
  | VFloat TFloat32 _ => reflect.Float32
  | VFloat TFloat64 _ => reflect.Float64
  | VBool _ => reflect.Bool
  | VStrings _ | VInts _ _ | VFloats _ _ | VByteSlices _
  | VIntPtrs _ | VStringPtrs _ | VList _ => reflect.Slice
  | VMap _ => reflect.Map
  | VOther k => k
  end.

(** The elements of a slice as interface values
    ([reflect.Value.Index(i).Interface()]). A [VOther] value carries none. *)
Definition elements (v : Any) : list Any :=
  match v with
  | VStrings l => VString <$> l
  | VInts t l => VInt t <$> l
  | VFloats t l => VFloat t <$> l
  | VByteSlices l => VBytes <$> l
  | VIntPtrs l => (λ _, VOther reflect.Ptr) <$> l
  | VStringPtrs l => (λ _, VOther reflect.Ptr) <$> l
  | VList l => l
  | _ => []
  end.

(** ** The SDK's wire types ([github.com/awslabs/aws-sdk-go/service/dynamodb]) *)

Module SDK.

(** [AttributeValue]: one slot per DynamoDB storage kind, as the SDK release
    that [helper.go] imports declares it. The source fixes the type of every
    slot it touches: [B] is a [[]byte], [BS] a [[][]byte], [BOOL], [N] and [S]
    are pointers to a scalar, [M] is a pointer to a map of attribute value
    pointers, [NS] and [SS] are [[]*string], [L] is a slice of attribute value
    pointers. *)
Inductive AttributeValue := mkAttributeValue {
  B : list Z;
  BOOL : option bool;
  BS : list (list Z);
  L : list AttributeValue;
  M : option (gmap string AttributeValue);
  N : option string;
  NS : list string;
  NULL : option bool;
  S : option string;
  SS : list string
}.

Record KeySchemaElement := mkKeySchemaElement {
  AttributeName : option string;
  KeyType : option string
}.

End SDK.

(** [SDK.AttributeValue{}]: every slot at its zero value. *)
Definition emptyAttributeValue : SDK.AttributeValue :=
  SDK.mkAttributeValue [] None [] [] None None [] None None [].

(** The struct literals the encoder builds, [SDK.AttributeValue{F: x}]. *)
Definition lit_S (x : string) : SDK.AttributeValue :=
  SDK.mkAttributeValue [] None [] [] None None [] None (Some x) [].
Definition lit_N (x : string) : SDK.AttributeValue :=
  SDK.mkAttributeValue [] None [] [] None (Some x) [] None None [].
Definition lit_B (x : list Z) : SDK.AttributeValue :=
  SDK.mkAttributeValue x None [] [] None None [] None None [].
Definition lit_BOOL (x : bool) : SDK.AttributeValue :=
  SDK.mkAttributeValue [] (Some x) [] [] None None [] None None [].
Definition lit_SS (x : list string) : SDK.AttributeValue :=
  SDK.mkAttributeValue [] None [] [] None None [] None None x.
Definition lit_BS (x : list (list Z)) : SDK.AttributeValue :=
  SDK.mkAttributeValue [] None x [] None None [] None None [].
Definition lit_NS (x : list string) : SDK.AttributeValue :=
  SDK.mkAttributeValue [] None [] [] None None x None None [].
Definition lit_M (x : gmap string SDK.AttributeValue) : SDK.AttributeValue :=
  SDK.mkAttributeValue [] None [] [] (Some x) None [] None None [].
Definition lit_L (x : list SDK.AttributeValue) : SDK.AttributeValue :=
  SDK.mkAttributeValue [] None [] x None None [] None None [].

Definition KeyTypeHash : string := "HASH".
Definition KeyTypeRange : string := "RANGE".

(** ** Decoding: [getItemValue] and [Unmarshal] *)

(** [getItemValue] returns the payload of the first populated slot, in the
    order of its [switch]. The [M] case is the loop of [Unmarshal] on [*val.M]
    (the two Go functions are mutually recursive; see [getItemValue_M]).
    [otherwise] holds the cases that follow the [M] case, which is left both
    when [val.M] is nil and when the map is empty. *)
Fixpoint getItemValue (val : SDK.AttributeValue) : Any :=
  let otherwise :=
    if bool_decide (0 < length (SDK.NS val))%nat then   (* len(val.NS) > 0 *)
      VIntPtrs (appendEach (λ vString, (strconv.Atoi vString).1) (SDK.NS val))
    else if bool_decide (0 < length (SDK.SS val))%nat then   (* len(val.SS) > 0 *)
      VStringPtrs (appendEach (λ vString, vString) (SDK.SS val))
    else if bool_decide (0 < length (SDK.BS val))%nat then   (* len(val.BS) > 0 *)
      VByteSlices (appendEach (λ vBytes, vBytes) (SDK.BS val))
    else if bool_decide (0 < length (SDK.L val))%nat then    (* len(val.L) > 0 *)
      VList (appendEach getItemValue (SDK.L val))
    else Nil in
  match SDK.N val with
  | Some n => VInt TInt (strconv.Atoi n).1                   (* val.N != nil *)
  | None =>
  match SDK.S val with
  | Some s => VString s                                      (* val.S != nil *)
  | None =>
  match SDK.BOOL val with
  | Some b => VBool b                                        (* val.BOOL != nil *)
  | None =>
  if bool_decide (0 < length (SDK.B val))%nat then VBytes (SDK.B val)
  else
  match SDK.M val with                       (* val.M != nil and non-empty *)
  | Some m =>
    if bool_decide (0 < size m)%nat then
      VMap (map_fold (λ key val data, <[key := getItemValue val]> data) ∅ m)
    else otherwise
  | None => otherwise
  end end end end.

Definition Unmarshal (item : option (gmap string SDK.AttributeValue))
  : gmap string Any :=
  let data := ∅ in
  match item with
  | None => data
  | Some m => map_fold (λ key val data, <[key := getItemValue val]> data) data m
  end.

(** ** Key schema builders *)

Definition NewKeySchema (elements : list (option SDK.KeySchemaElement))
  : outcome (list (option SDK.KeySchemaElement)) :=
  if bool_decide (1 < length elements)%nat then
    let schema := replicate 2 None in
    e0 ← index elements 0;
    let schema := <[0%nat := e0]> schema in
    e1 ← index elements 1;
    let schema := <[1%nat := e1]> schema in
    Returns schema
  else
    let schema := replicate 1 None in
    e0 ← index elements 0;
    let schema := <[0%nat := e0]> schema in
    Returns schema.

Definition NewKeyElement (keyName keyType : string) : option SDK.KeySchemaElement :=
  Some (SDK.mkKeySchemaElement (Some keyName) (Some keyType)).

Definition NewHashKeyElement (keyName : string) : option SDK.KeySchemaElement :=
  NewKeyElement keyName KeyTypeHash.

Definition NewRangeKeyElement (keyName : string) : option SDK.KeySchemaElement :=
  NewKeyElement keyName KeyTypeRange.

(** ** Attribute definition builders *)

(** [SDK.AttributeDefinition], in a module of its own because its field
    [AttributeName] has the name of a field of [SDK.KeySchemaElement]. Both
    fields are pointers to a string. *)
Module AttributeDefinition.

Record t := mk {
  AttributeName : option string;
  AttributeType : option string
}.

End AttributeDefinition.

(** The attribute types listed by the [case] of [NewAttributeDefinition]. *)
Definition attributeTypes : list string :=
  ["S"; "N"; "B"; "BOOL"; "L"; "M"; "SS"; "NS"; "BS"].

Definition NewAttributeDefinition (attrName attrType : string)
  : option AttributeDefinition.t :=
  let newAttr := AttributeDefinition.mk None None in
  if bool_decide (attrType ∈ attributeTypes) then
    let typ := Some attrType in
    Some (AttributeDefinition.mk (Some attrName) typ)
  else Some newAttr.

Definition NewAttributeDefinitions (attr : list (option AttributeDefinition.t))
  : list (option AttributeDefinition.t) := attr.

Definition NewStringAttribute (attrName : string) : option AttributeDefinition.t :=
  NewAttributeDefinition attrName "S".

Definition NewNumberAttribute (attrName : string) : option AttributeDefinition.t :=
  NewAttributeDefinition attrName "N".

Definition NewByteAttribute (attrName : string) : option AttributeDefinition.t :=
  NewAttributeDefinition attrName "B".

Definition NewBoolAttribute (attrName : string) : option AttributeDefinition.t :=
  NewAttributeDefinition attrName "BOOL".

(** ** Encoding: [createAttributeValue] and [Marshal] *)

Section encoder.

(** [fmt.Sprint] on one operand, for the operands whose printed form is not
    modelled: floating-point numbers and composite values. *)
Variable SprintOther : Any → string.

Definition Sprint (v : Any) : string :=
  match v with
  | VInt _ n => fmt.fmtInteger n
  | VString s => s
  | VBool true => "true"
  | VBool false => "false"
  | _ => SprintOther v
  end.

Definition createPointerSliceString (values : list string) : list string :=
  appendEach (λ v, let str := v in str) values.

(** [reflect.TypeOf(nil)] is the nil [Type], whose [Kind()] panics. *)
Definition MarshalStringSlice (item : Any) : outcome (list string) :=
  match item with
  | Nil => Panics NilDereference
  | _ =>
    match Kind_of item with
    | reflect.Slice => Returns (appendEach Sprint (elements item))
    | _ => Returns []
    end
  end.

(** The type switch, then the [reflect.Map] test with its type assertion
    [v.(map[string]interface{})], then the empty value. The [VMap] case is the
    loop of [Marshal] (see [createAttributeValue_VMap]). *)
Fixpoint createAttributeValue (v : Any) : outcome SDK.AttributeValue :=
  match v with
  | VString t => Returns (lit_S t)
  | VInt (TInt | TInt32 | TInt64 | TUint | TUint32 | TUint64) _
  | VFloat _ _ => Returns (lit_N (Sprint v))
  | VBytes t => Returns (lit_B t)
  | VBool t => Returns (lit_BOOL t)
  | VStrings t => Returns (lit_SS (createPointerSliceString t))
  | VByteSlices t => Returns (lit_BS t)
  | VInts (TInt | TInt32 | TInt64 | TUint | TUint32 | TUint64) _
  | VFloats _ _ => ns ← MarshalStringSlice v; Returns (lit_NS ns)
  | _ =>
    match Kind_of v with
    | reflect.Map =>
      match v with
      | VMap item =>
        data ← map_fold (λ key val acc,
                  data ← acc;
                  av ← createAttributeValue val;
                  Returns (<[key := av]> data)) (Returns ∅) item;
        Returns (lit_M data)
      | _ => Panics InterfaceConversion
      end
    | _ => Returns emptyAttributeValue
    end
  end.

Definition Marshal (item : gmap string Any)
  : outcome (gmap string SDK.AttributeValue) :=
  map_fold (λ key val acc,
    data ← acc;
    av ← createAttributeValue val;
    Returns (<[key := av]> data)) (Returns ∅) item.

(** Encoding followed by decoding. *)
Definition roundTrip (v : Any) : outcome Any :=
  av ← createAttributeValue v; Returns (getItemValue av).

Definition roundTripRecord (item : gmap string Any) : outcome (gmap string Any) :=
  data ← Marshal item; Returns (Unmarshal (Some data)).

End encoder.

(** ** Specification-side definitions *)

(** The range of Go's [int], the type [getItemValue] decodes a Number to. *)
Definition minInt : Z := - 2 ^ 63.
Definition maxInt : Z := 2 ^ 63 - 1.
Definition fitsInt (n : Z) : Prop := minInt ≤ n ≤ maxInt.

(** A string of decimal digits, and the number it denotes when read after a
    prefix of value [a]. *)
Fixpoint allDigits (s : string) : Prop :=
  match s with
  | EmptyString => True
  | String c s' => is_Some (strconv.digit c) ∧ allDigits s'
  end.

Fixpoint decimalValue (s : string) (a : Z) : Z :=
  match s with
  | EmptyString => a
  | String c s' => decimalValue s' (a * 10 + default 0 (strconv.digit c))
  end.

(** The integer types listed by the Number case of the encoder's type switch. *)
Definition numberTypes : list IntType :=
  [TInt; TInt32; TInt64; TUint; TUint32; TUint64].

(** What the specification says of a Number set: the elements that fail to
    parse are dropped, the others are kept in order. *)
Definition parsedElements (ns : list string) : list Z :=
  omap (λ vString,
    match strconv.Atoi vString with
    | (vInt, None) => Some vInt
    | (_, Some _) => None
    end) ns.

(** The values the round-trip property of records speaks of: the scalar
    shapes that survive a round trip (text, booleans, integers of a type the
    encoder prints and in the range of [int], non-empty byte buffers) and
    non-empty maps of such values. *)
Inductive supported : Any → Prop :=
| supported_string s : supported (VString s)
| supported_bool b : supported (VBool b)
| supported_int t n : t ∈ numberTypes → fitsInt n → supported (VInt t n)
| supported_bytes b : b ≠ [] → supported (VBytes b)
| supported_map m :
    m ≠ ∅ → (∀ key v, m !! key = Some v → supported v) → supported (VMap m).

(** The scalar round-trip rules applied to every leaf: an integer comes back
    as an [int], text, booleans and bytes come back unchanged. *)
Fixpoint scalarRoundTrip (v : Any) : Any :=
  match v with
  | VInt _ n => VInt TInt n
  | VMap m => VMap (scalarRoundTrip <$> m)
  | _ => v
  end.

(** A value in which no map of a type other than [map[string]interface{}]
    occurs, at any depth of nested [map[string]interface{}] values. *)
Inductive noForeignMap : Any → Prop :=
| noForeignMap_leaf v :
    (∀ m, v ≠ VMap m) → Kind_of v ≠ reflect.Map → noForeignMap v
| noForeignMap_map m :
    (∀ key v, m !! key = Some v → noForeignMap v) → noForeignMap (VMap m).

(** A printer to close examples with, where no operand is printed by
    [SprintOther]. *)
Definition noSprintOther : Any → string := λ _, EmptyString.

(** A record of supported values, one of them a nested map. *)
Definition exampleRecord : gmap string Any :=
  <["name" := VString "Alice"]> (
  <["age" := VInt TInt 30]> (
  <["active" := VBool true]> (
  <["address" := VMap (<["zip" := VInt TInt64 1234]> ∅)]> ∅))).

Definition exampleKeys : list (option SDK.KeySchemaElement) :=
  [NewHashKeyElement "id"; NewRangeKeyElement "time"; NewHashKeyElement "extra"].

(** How deep maps are nested in a native value, and in an attribute value
    through its [M] slot. *)
Fixpoint mapDepth (v : Any) : nat :=
  match v with
  | VMap m => S (map_fold (λ _ x acc, Nat.max (mapDepth x) acc) 0%nat m)
  | _ => 0%nat
  end.

Fixpoint attributeDepth (val : SDK.AttributeValue) : nat :=
  match SDK.M val with
  | Some m => S (map_fold (λ _ x acc, Nat.max (attributeDepth x) acc) 0%nat m)
  | None => 0%nat
  end.

(** A value in which a map of a type other than [map[string]interface{}]
    occurs, itself or as a field at some depth of nested
    [map[string]interface{}] values. *)
Inductive holdsForeignMap : Any → Prop :=
| holdsForeignMap_here : holdsForeignMap (VOther reflect.Map)
| holdsForeignMap_field m key v :
    m !! key = Some v → holdsForeignMap v → holdsForeignMap (VMap m).

(** The number of slots of an attribute value that carry data: a non-nil
    pointer, a slice with at least one element. *)
Definition populatedSlots (av : SDK.AttributeValue) : nat :=
  ((if SDK.B av is [] then 0 else 1)
   + (if SDK.BOOL av is Some _ then 1 else 0)
   + (if SDK.BS av is [] then 0 else 1)
   + (if SDK.L av is [] then 0 else 1)
   + (if SDK.M av is Some _ then 1 else 0)
   + (if SDK.N av is Some _ then 1 else 0)
   + (if SDK.NS av is [] then 0 else 1)
   + (if SDK.NULL av is Some _ then 1 else 0)
   + (if SDK.S av is Some _ then 1 else 0)
   + (if SDK.SS av is [] then 0 else 1))%nat.

(** A record with a field of a shape the encoder does not list. *)
Definition exampleLooseRecord : gmap string Any :=
  <["callback" := VOther reflect.Func]> (<["n" := VInt TInt 1]> ∅).

(** ** Loops as maps *)

Lemma bind_Returns {A B} (a : A) (f : A → outcome B) : Returns a ≫= f = f a.
Proof. reflexivity. Qed.

Lemma appendEach_fmap {A B} (f : A → B) (s : list A) : appendEach f s = f <$> s.
Proof.
  unfold appendEach.
  enough (∀ acc, foldl (λ data x, data ++ [f x]) acc s = acc ++ (f <$> s)) as H
    by apply (H []).
  induction s as [|x s IH]; intros acc; simpl.
  - by rewrite app_nil_r.
  - rewrite IH. by rewrite <- app_assoc.
Qed.

Lemma appendEach_id {A} (s : list A) : appendEach (λ x, x) s = s.
Proof. rewrite appendEach_fmap. apply list_fmap_id. Qed.

Lemma map_fold_insert_fmap {A B} (f : A → B) (m : gmap string A) :
  map_fold (λ key val data, <[key := f val]> data) ∅ m = f <$> m.
Proof.
  apply (map_fold_weak_ind (λ r m, r = f <$> m)).
  - by rewrite fmap_empty.
  - intros i x m' r _ ->. by rewrite fmap_insert.
Qed.

(** ** The integer parser reads back what the integer printer wrote *)

Lemma digit_range c v : strconv.digit c = Some v → 0 ≤ v < 10.
Proof.
  unfold strconv.digit. intros H.
  destruct (48 <=? Z.of_N (N_of_ascii c)) eqn:H1; simpl in H; [|discriminate].
  destruct (Z.of_N (N_of_ascii c) <=? 57) eqn:H2; simpl in H; [|discriminate].
  inversion H. lia.
Qed.

Lemma digit_digitChar d : 0 ≤ d < 10 → strconv.digit (fmt.digitChar d) = Some d.
Proof.
  intros H.
  assert (d = 0 ∨ d = 1 ∨ d = 2 ∨ d = 3 ∨ d = 4 ∨ d = 5 ∨ d = 6 ∨ d = 7
          ∨ d = 8 ∨ d = 9) as Hd by lia.
  destruct_or!; subst d; reflexivity.
Qed.

Lemma digit_not_sign c v :
  strconv.digit c = Some v → c ≠ "+"%char ∧ c ≠ "-"%char.
Proof. intros H. split; intros ->; discriminate H. Qed.

Lemma decimalValue_ge s : allDigits s → ∀ a, 0 ≤ a → a ≤ decimalValue s a.
Proof.
  induction s as [|c s IH]; simpl; [lia|].
  intros [[v Hv] Hs] a Ha. rewrite Hv. simpl.
  apply digit_range in Hv. specialize (IH Hs (a * 10 + v)). lia.
Qed.

Lemma maxUint64_eq : strconv.maxUint64 = 18446744073709551615.
Proof. reflexivity. Qed.

Lemma uint64_small z : 0 ≤ z ≤ 18446744073709551615 → strconv.uint64 z = z.
Proof. intros H. unfold strconv.uint64. apply Z.mod_small. lia. Qed.

Lemma int64_small z : minInt ≤ z ≤ maxInt → strconv.int64 z = z.
Proof.
  unfold minInt, maxInt, strconv.int64. intros H.
  rewrite Z.mod_small; lia.
Qed.

Lemma parseDigits_decimalValue s :
  allDigits s → ∀ n maxVal,
  0 ≤ n → decimalValue s n ≤ maxVal → maxVal ≤ strconv.maxUint64 →
  strconv.parseDigits s (strconv.maxUint64 / 10 + 1) maxVal n
  = (decimalValue s n, None).
Proof.
  rewrite maxUint64_eq.
  change (18446744073709551615 / 10 + 1) with 1844674407370955162.
  induction s as [|c s IH]; simpl; [done|].
  intros [[v Hv] Hs] n maxVal Hn Hle Hmax. rewrite Hv in *. simpl in Hle.
  pose proof (digit_range _ _ Hv) as Hr.
  pose proof (decimalValue_ge s Hs (n * 10 + v) ltac:(lia)) as Hge.
  destruct (Z.leb_spec 1844674407370955162 n); [lia|].
  rewrite (uint64_small (n * 10)) by lia.
  rewrite (uint64_small (n * 10 + v)) by lia.
  destruct (Z.ltb_spec (n * 10 + v) (n * 10)); [lia|].
  destruct (Z.ltb_spec maxVal (n * 10 + v)); [lia|]. simpl.
  apply IH; [done|lia|done|done].
Qed.

Lemma decimalValue_linear s : ∀ a,
  decimalValue s a = a * 10 ^ Z.of_nat (String.length s) + decimalValue s 0.
Proof.
  induction s as [|c s IH]; intros a; simpl String.length; simpl decimalValue.
  - lia.
  - rewrite (IH (a * 10 + _)), (IH (0 * 10 + _)).
    rewrite Nat2Z.inj_succ, Z.pow_succ_r by lia. lia.
Qed.

Lemma log2_div10 u : 10 ≤ u → Z.log2 (u / 10) < Z.log2 u.
Proof.
  intros H.
  assert (0 < u / 10) as Hq by (apply Z.div_str_pos; lia).
  apply Z.log2_lt_pow2; [done|].
  pose proof (Z.log2_spec u ltac:(lia)) as [_ Hu].
  rewrite Z.pow_succ_r in Hu by apply Z.log2_nonneg.
  apply Z.div_lt_upper_bound; lia.
Qed.

(** The digit loop puts digits in front of the buffer, at least one of them,
    and with enough fuel they denote [u]. *)
Lemma fmtDigits_allDigits fuel : ∀ u buf,
  0 ≤ u → allDigits buf → allDigits (fmt.fmtDigits fuel u buf).
Proof.
  induction fuel as [|fuel IH]; intros u buf Hu Hbuf; simpl; [done|].
  destruct (Z.leb_spec 10 u).
  - apply IH; [apply Z.div_pos; lia|]. split; [|done].
    rewrite digit_digitChar; [done|]. apply Z.mod_pos_bound. lia.
  - split; [|done]. rewrite digit_digitChar; [done|lia].
Qed.

Lemma fmtDigits_nonempty fuel : ∀ u buf,
  fuel ≠ O ∨ buf ≠ EmptyString →
  ∃ c ds, fmt.fmtDigits fuel u buf = String c ds.
Proof.
  induction fuel as [|fuel IH]; intros u buf H; simpl.
  - destruct buf; [by destruct H|eauto].
  - destruct (10 <=? u); [|eauto]. apply IH. by right.
Qed.

Lemma fmtDigits_decimalValue fuel : ∀ u buf,
  0 ≤ u → Z.log2 u < Z.of_nat fuel →
  decimalValue (fmt.fmtDigits fuel u buf) 0
  = u * 10 ^ Z.of_nat (String.length buf) + decimalValue buf 0.
Proof.
  induction fuel as [|fuel IH]; intros u buf Hu Hfuel; simpl.
  - pose proof (Z.log2_nonneg u). lia.
  - destruct (Z.leb_spec 10 u).
    + rewrite IH; [|apply Z.div_pos; lia|pose proof (log2_div10 u); lia].
      simpl String.length. simpl decimalValue.
      rewrite digit_digitChar by (apply Z.mod_pos_bound; lia). simpl.
      rewrite (decimalValue_linear buf (0 * 10 + _)).
      rewrite Nat2Z.inj_succ, Z.pow_succ_r by lia.
      pose proof (Z.div_mod u 10 ltac:(lia)). nia.
    + simpl decimalValue. rewrite digit_digitChar by lia. simpl.
      apply (decimalValue_linear buf (0 * 10 + u)).
Qed.

(** What [fmtInteger] prints for a non-negative number: a non-empty digit
    string that denotes it. *)
Lemma fmtInteger_digits u :
  0 ≤ u →
  ∃ c ds, fmt.fmtDigits (S (Z.to_nat (Z.log2 u))) u EmptyString = String c ds
          ∧ allDigits (String c ds) ∧ decimalValue (String c ds) 0 = u.
Proof.
  intros Hu.
  destruct (fmtDigits_nonempty (S (Z.to_nat (Z.log2 u))) u EmptyString)
    as (c & ds & Heq); [by left|].
  exists c, ds. split; [done|]. rewrite <- Heq. split.
  - by apply fmtDigits_allDigits.
  - rewrite fmtDigits_decimalValue; [simpl; lia|done|].
    pose proof (Z.log2_nonneg u). lia.
Qed.

Lemma ParseUint_digits c ds :
  allDigits (String c ds) → decimalValue (String c ds) 0 ≤ strconv.maxUint64 →
  strconv.ParseUint (String c ds) strconv.IntSize
  = (decimalValue (String c ds) 0, None).
Proof.
  intros Hd Hle. unfold strconv.ParseUint.
  change (strconv.IntSize =? 0) with false. cbv iota.
  change (strconv.uint64 (strconv.uint64 (Z.shiftl 1 strconv.IntSize) - 1))
    with strconv.maxUint64.
  apply parseDigits_decimalValue; [done|lia|done|lia].
Qed.

Lemma Atoi_fmtInteger n :
  fitsInt n → strconv.Atoi (fmt.fmtInteger n) = (n, None).
Proof.
  unfold fitsInt, minInt, maxInt. intros Hn.
  unfold strconv.Atoi, fmt.fmtInteger.
  destruct (Z.ltb_spec n 0) as [Hneg|Hpos].
  - destruct (fmtInteger_digits (- n)) as (c & ds & -> & Hd & Hv); [lia|].
    unfold strconv.ParseInt. change (0 =? 0) with true. cbv iota.
    change (bool_decide ("-"%char = "-"%char)) with true.
    rewrite orb_true_r.
    rewrite ParseUint_digits; [|done|rewrite Hv, maxUint64_eq; lia].
    rewrite Hv. simpl negb. simpl andb.
    change (strconv.uint64 (Z.shiftl 1 (strconv.IntSize - 1)))
      with 9223372036854775808.
    destruct (Z.ltb_spec 9223372036854775808 (- n)); [lia|].
    f_equal.
    destruct (decide (n = - 9223372036854775808)) as [->|Hne]; [reflexivity|].
    rewrite (int64_small (- n)) by (unfold minInt, maxInt; lia).
    rewrite Z.opp_involutive.
    apply int64_small. unfold minInt, maxInt; lia.
  - destruct (fmtInteger_digits n) as (c & ds & -> & Hd & Hv); [lia|].
    destruct Hd as [[v Hc] Hds].
    destruct (digit_not_sign _ _ Hc) as [Hplus Hminus].
    unfold strconv.ParseInt. change (0 =? 0) with true. cbv iota.
    rewrite !bool_decide_eq_false_2 by done. simpl orb. cbv iota.
    rewrite ParseUint_digits;
      [|split; [eauto|done]|rewrite Hv, maxUint64_eq; lia].
    rewrite Hv. simpl negb. simpl andb.
    change (strconv.uint64 (Z.shiftl 1 (strconv.IntSize - 1)))
      with 9223372036854775808.
    destruct (Z.leb_spec 9223372036854775808 n); [lia|].
    f_equal. apply int64_small. unfold minInt, maxInt; lia.
Qed.

(** What [Atoi] returns beside an error: 0 with a syntax error, the nearest
    bound of [int] with a range error. *)
Lemma Atoi_syntax_value s :
  (strconv.Atoi s).2 = Some strconv.ErrSyntax → (strconv.Atoi s).1 = 0.
Proof.
  unfold strconv.Atoi, strconv.ParseInt. destruct s as [|c rest]; [done|].
  destruct (strconv.ParseUint _ _) as [un [[]|]]; [done| |];
    repeat case_match; simpl; intros; simplify_eq.
Qed.

Lemma Atoi_range_value s :
  (strconv.Atoi s).2 = Some strconv.ErrRange →
  (strconv.Atoi s).1 = maxInt ∨ (strconv.Atoi s).1 = minInt.
Proof.
  unfold strconv.Atoi, strconv.ParseInt. destruct s as [|c rest]; [done|].
  change (0 =? 0) with true. cbv iota.
  destruct (strconv.ParseUint _ _) as [un [[]|]]; [done| |];
    repeat case_match; simpl; intros; simplify_eq; (by left) || (by right).
Qed.

(** ** The decoder *)

Lemma getItemValue_N val s :
  SDK.N val = Some s → getItemValue val = VInt TInt (strconv.Atoi s).1.
Proof. destruct val; simpl. by intros ->. Qed.

Lemma getItemValue_NS ns :
  ns ≠ [] →
  getItemValue (lit_NS ns) = VIntPtrs ((λ vString, (strconv.Atoi vString).1) <$> ns).
Proof.
  intros Hns. simpl. rewrite bool_decide_eq_true_2.
  - by rewrite appendEach_fmap.
  - destruct ns; [done|simpl; lia].
Qed.

Lemma Unmarshal_fmap m : Unmarshal (Some m) = getItemValue <$> m.
Proof. apply map_fold_insert_fmap. Qed.

(** The [M] case of [getItemValue] is the call [Unmarshal(val.M)]. *)
Lemma getItemValue_M m :
  m ≠ ∅ → getItemValue (lit_M m) = VMap (Unmarshal (Some m)).
Proof.
  intros Hm. simpl. rewrite bool_decide_eq_true_2; [done|].
  apply map_size_non_empty_iff in Hm. lia.
Qed.

(** C1, as the code has it. Decoding a Number set with at least one element
    always yields a sequence with one integer per element, in the order of the
    set: the value [Atoi] returns for that element, which is 0 when the text
    is not an integer and the nearest bound of [int] when it is out of range.
    No element is dropped. *)
Theorem getItemValue_NS_keeps_every_element (ns : list string) :
  ns ≠ [] →
  ∃ data,
    getItemValue (lit_NS ns) = VIntPtrs data
    ∧ length data = length ns
    ∧ ∀ (i : nat) vString, ns !! i = Some vString →
        data !! i = Some (strconv.Atoi vString).1
        ∧ ((strconv.Atoi vString).2 = Some strconv.ErrSyntax →
           data !! i = Some 0)
        ∧ ((strconv.Atoi vString).2 = Some strconv.ErrRange →
           data !! i = Some maxInt ∨ data !! i = Some minInt).
Proof.
  intros Hns. eexists. split; [by apply getItemValue_NS|].
  split; [by rewrite length_fmap|].
  intros i vString Hi.
  assert (((λ vString, (strconv.Atoi vString).1) <$> ns) !! i
          = Some (strconv.Atoi vString).1) as ->
    by (by rewrite list_lookup_fmap, Hi).
  split; [done|]. split.
  - intros He. by rewrite (Atoi_syntax_value _ He).
  - intros He. destruct (Atoi_range_value _ He) as [-> | ->]; eauto.
Qed.

(** C2, as the code has it. When the Number slot is populated the decoder
    returns an ordinary [int], the value [Atoi] returns, whatever the error:
    0 when the text is not an integer (a fraction such as "1.5"), the nearest
    bound of [int] when it is out of range. *)
Theorem getItemValue_N_discards_the_error (val : SDK.AttributeValue) (s : string) :
  SDK.N val = Some s →
  getItemValue val = VInt TInt (strconv.Atoi s).1
  ∧ ((strconv.Atoi s).2 = Some strconv.ErrSyntax →
     getItemValue val = VInt TInt 0)
  ∧ ((strconv.Atoi s).2 = Some strconv.ErrRange →
     getItemValue val = VInt TInt maxInt ∨ getItemValue val = VInt TInt minInt).
Proof.
  intros HN. rewrite (getItemValue_N _ _ HN). split; [done|]. split.
  - intros He. by rewrite (Atoi_syntax_value _ He).
  - intros He. destruct (Atoi_range_value _ He) as [-> | ->]; eauto.
Qed.

(** C8. [Unmarshal] of a nil reference is the empty record; of a map, it is
    the record with the same fields, each holding [getItemValue] of the
    field's attribute value. *)
Theorem Unmarshal_total :
  Unmarshal None = ∅
  ∧ ∀ m : gmap string SDK.AttributeValue,
      dom (Unmarshal (Some m)) = dom m
      ∧ size (Unmarshal (Some m)) = size m
      ∧ ∀ key, Unmarshal (Some m) !! key = getItemValue <$> (m !! key).
Proof.
  split; [done|]. intros m. rewrite Unmarshal_fmap.
  split; [apply dom_fmap_L|]. split; [apply map_size_fmap|].
  intros key. apply lookup_fmap.
Qed.

(** ** The key schema builder *)

(** C10. Called with at least one element, [NewKeySchema] returns the first
    two elements in order: the one element when there is exactly one, and
    exactly two when there are more (the rest is discarded). *)
Theorem NewKeySchema_first_two (elements : list (option SDK.KeySchemaElement)) :
  (0 < length elements)%nat →
  NewKeySchema elements = Returns (take 2 elements)
  ∧ (length elements = 1%nat → take 2 elements = elements)
  ∧ ((1 < length elements)%nat → length (take 2 elements) = 2%nat).
Proof.
  intros Hlen. unfold NewKeySchema.
  destruct elements as [|e0 [|e1 rest]]; simpl in *; [lia| |].
  - split; [done|]. split; [done|lia].
  - split; [by rewrite take_0|]. split; [lia|done].
Qed.

(** ** The encoder, and encoding followed by decoding *)

Section encoder_properties.

Variable SprintOther : Any → string.

Local Abbreviation createAttributeValue := (createAttributeValue SprintOther).
Local Abbreviation Marshal := (Marshal SprintOther).
Local Abbreviation roundTrip := (roundTrip SprintOther).
Local Abbreviation roundTripRecord := (roundTripRecord SprintOther).

(** The [reflect.Map] case of [createAttributeValue] is the call
    [Marshal(v.(map[string]interface{}))]. *)
Lemma createAttributeValue_VMap item :
  createAttributeValue (VMap item) = data ← Marshal item; Returns (lit_M data).
Proof. reflexivity. Qed.

Lemma Marshal_Returns (f : Any → SDK.AttributeValue) item :
  (∀ key v, item !! key = Some v → createAttributeValue v = Returns (f v)) →
  Marshal item = Returns (f <$> item).
Proof.
  unfold Marshal.
  apply (map_fold_weak_ind (λ r m,
    (∀ key v, m !! key = Some v → createAttributeValue v = Returns (f v)) →
    r = Returns (f <$> m))).
  - intros _. by rewrite fmap_empty.
  - intros i x m r Hi IH H.
    rewrite IH.
    + rewrite (H i x) by apply lookup_insert_eq. simpl.
      by rewrite fmap_insert.
    + intros key v Hkv. apply (H key).
      rewrite lookup_insert_ne; [done|]. intros ->. congruence.
Qed.

Lemma Marshal_Panics item key v p :
  item !! key = Some v → createAttributeValue v = Panics p →
  ∃ p', Marshal item = Panics p'.
Proof.
  unfold Marshal. revert key v p.
  apply (map_fold_weak_ind (λ r m,
    ∀ key v p, m !! key = Some v → createAttributeValue v = Panics p →
    ∃ p', r = Panics p')).
  - intros key v p H. by rewrite lookup_empty in H.
  - intros i x m r Hi IH key v p Hkv Hp.
    destruct r as [data|p0]; [|by eexists].
    destruct (decide (i = key)) as [->|Hne].
    + rewrite lookup_insert_eq in Hkv. simplify_eq. simpl. rewrite Hp. by eexists.
    + rewrite lookup_insert_ne in Hkv by done.
      destruct (IH key v p Hkv Hp) as [p' ?]. done.
Qed.

(** A result of [Marshal] has the fields of its argument, each holding what
    [createAttributeValue] returned for it, the empty value included. *)
Lemma Marshal_inv item data :
  Marshal item = Returns data →
  dom data = dom item
  ∧ ∀ key v, item !! key = Some v →
      ∃ av, createAttributeValue v = Returns av ∧ data !! key = Some av.
Proof.
  unfold Marshal. revert data.
  apply (map_fold_weak_ind (λ r m, ∀ data, r = Returns data →
    dom data = dom m
    ∧ ∀ key v, m !! key = Some v →
        ∃ av, createAttributeValue v = Returns av ∧ data !! key = Some av)).
  - intros data [= <-]. split; [by rewrite !dom_empty_L|].
    intros key v H. by rewrite lookup_empty in H.
  - intros i x m r Hi IH data.
    destruct r as [data0|p]; [|done]. simpl.
    destruct (createAttributeValue x) as [av|p] eqn:Hx; [|done].
    simpl. intros [= <-].
    destruct (IH data0 eq_refl) as [Hdom Hall]. split.
    + by rewrite !dom_insert_L, Hdom.
    + intros key v Hkv. destruct (decide (i = key)) as [->|Hne].
      * rewrite lookup_insert_eq in Hkv. simplify_eq.
        exists av. by rewrite lookup_insert_eq.
      * rewrite lookup_insert_ne in Hkv by done.
        destruct (Hall key v Hkv) as (av' & ? & ?).
        exists av'. by rewrite lookup_insert_ne.
Qed.

Lemma getItemValue_B b : b ≠ [] → getItemValue (lit_B b) = VBytes b.
Proof.
  intros Hb. simpl. rewrite bool_decide_eq_true_2; [done|].
  destruct b; [done|simpl; lia].
Qed.

(** Encoding a supported value returns, and decoding the result gives the
    value back with the scalar round-trip rules applied. *)
Lemma roundTrip_supported v :
  supported v →
  ∃ av, createAttributeValue v = Returns av ∧ getItemValue av = scalarRoundTrip v.
Proof.
  induction 1 as [s|b|t n Ht Hn|b Hb|m Hm Hall IH].
  - by eexists.
  - by eexists.
  - exists (lit_N (fmt.fmtInteger n)). split.
    + unfold numberTypes in Ht.
      repeat (apply elem_of_cons in Ht as [->|Ht]; [reflexivity|]).
      by apply elem_of_nil in Ht.
    + simpl. by rewrite Atoi_fmtInteger.
  - exists (lit_B b). split; [done|]. by apply getItemValue_B.
  - set (f := λ v, returned emptyAttributeValue (createAttributeValue v)).
    assert (Marshal m = Returns (f <$> m)) as HM.
    { apply Marshal_Returns. intros key v Hkv.
      destruct (IH key v Hkv) as (av & Hav & _). unfold f. by rewrite Hav. }
    exists (lit_M (f <$> m)). split.
    + by rewrite createAttributeValue_VMap, HM.
    + rewrite getItemValue_M by (by rewrite fmap_empty_iff).
      rewrite Unmarshal_fmap, <- map_fmap_compose. simpl. f_equal.
      apply map_fmap_ext. intros key v Hkv. simpl.
      destruct (IH key v Hkv) as (av & Hav & Hget). unfold f. by rewrite Hav.
Qed.

(** C3. For a record whose entries are all supported values, [Marshal]
    followed by [Unmarshal] returns the record with the scalar round-trip
    rules applied to every leaf, nested non-empty maps included. *)
Theorem roundTripRecord_supported (m : gmap string Any) :
  map_Forall (λ _ v, supported v) m →
  roundTripRecord m = Returns (scalarRoundTrip <$> m).
Proof.
  intros Hall. unfold roundTripRecord.
  set (f := λ v, returned emptyAttributeValue (createAttributeValue v)).
  rewrite (Marshal_Returns f).
  - rewrite bind_Returns, Unmarshal_fmap, <- map_fmap_compose. f_equal.
    apply map_fmap_ext. intros key v Hkv. simpl.
    destruct (roundTrip_supported v (Hall key v Hkv)) as (av & Hav & Hget).
    unfold f. by rewrite Hav.
  - intros key v Hkv.
    destruct (roundTrip_supported v (Hall key v Hkv)) as (av & Hav & _).
    unfold f. by rewrite Hav.
Qed.

(** C4, as the code has it. For an integer of one of the types the encoder
    prints ([int], [int32], [int64], [uint], [uint32], [uint64]) whose value
    is in the range of [int], encoding renders it as decimal text in the
    Number slot and decoding parses it back: the round trip returns the same
    number as an [int]. *)
Theorem roundTrip_int (t : IntType) (n : Z) :
  t ∈ numberTypes → fitsInt n →
  createAttributeValue (VInt t n) = Returns (lit_N (fmt.fmtInteger n))
  ∧ roundTrip (VInt t n) = Returns (VInt TInt n).
Proof.
  intros Ht Hn.
  assert (createAttributeValue (VInt t n) = Returns (lit_N (fmt.fmtInteger n)))
    as Henc.
  { unfold numberTypes in Ht.
    repeat (apply elem_of_cons in Ht as [->|Ht]; [reflexivity|]).
    by apply elem_of_nil in Ht. }
  split; [done|]. unfold roundTrip. rewrite Henc. simpl.
  by rewrite Atoi_fmtInteger.
Qed.

(** C5, at the input where the code departs from it. A map whose type is not
    [map[string]interface{}] passes the [reflect.Map] test and fails the type
    assertion: the encoder panics instead of returning the empty value. *)
Theorem createAttributeValue_foreign_map_panics :
  Kind_of (VOther reflect.Map) = reflect.Map
  ∧ createAttributeValue (VOther reflect.Map) = Panics InterfaceConversion.
Proof. split; reflexivity. Qed.

(** Apart from that, the encoder returns: on every value in which no foreign
    map occurs. *)
Lemma createAttributeValue_returns v :
  noForeignMap v → ∃ av, createAttributeValue v = Returns av.
Proof.
  induction 1 as [v Hmap Hkind|m Hall IH].
  - destruct v as [|s|t n|t f|b|l|t l|t l|l|l|l|l|m|k];
      try (by exfalso; eapply Hmap);
      try (by eexists); try (by destruct t; eexists).
    simpl in Hkind. destruct k; try done; by eexists.
  - set (f := λ v, returned emptyAttributeValue (createAttributeValue v)).
    exists (lit_M (f <$> m)).
    rewrite createAttributeValue_VMap, (Marshal_Returns f); [done|].
    intros key v Hkv. destruct (IH key v Hkv) as [av Hav].
    unfold f. by rewrite Hav.
Qed.

(** A value of a type that no case of the type switch lists, and whose kind
    is not [reflect.Map], is encoded as the empty value. *)
Lemma createAttributeValue_unmatched k :
  k ≠ reflect.Map → createAttributeValue (VOther k) = Returns emptyAttributeValue.
Proof. intros Hk. by destruct k. Qed.

(** C6. An attribute value holding only an empty map, or only an empty byte
    buffer, decodes to nil; so an empty byte buffer does not survive the round
    trip, while a non-empty one does. *)
Theorem empty_map_and_empty_binary_decode_to_nil :
  getItemValue (lit_M ∅) = Nil
  ∧ getItemValue (lit_B []) = Nil
  ∧ roundTrip (VBytes []) = Returns Nil
  ∧ ∀ b, b ≠ [] → roundTrip (VBytes b) = Returns (VBytes b).
Proof.
  split; [reflexivity|]. split; [reflexivity|]. split; [reflexivity|].
  intros b Hb. unfold roundTrip.
  change (createAttributeValue (VBytes b)) with (Returns (lit_B b)).
  by rewrite bind_Returns, getItemValue_B.
Qed.

(** The encoder prints a slice of integers element by element, in order. *)
Lemma createAttributeValue_VInts t l :
  t ∈ numberTypes →
  createAttributeValue (VInts t l) = Returns (lit_NS (fmt.fmtInteger <$> l)).
Proof.
  intros Ht.
  assert (createAttributeValue (VInts t l)
          = ns ← MarshalStringSlice SprintOther (VInts t l); Returns (lit_NS ns))
    as ->.
  { unfold numberTypes in Ht.
    repeat (apply elem_of_cons in Ht as [->|Ht]; [reflexivity|]).
    by apply elem_of_nil in Ht. }
  unfold MarshalStringSlice. simpl.
  by rewrite appendEach_fmap, <- list_fmap_compose.
Qed.

(** A non-empty slice of integers in the range of [int] comes back as the same
    integers in the same order. *)
Lemma roundTrip_VInts t l :
  t ∈ numberTypes → l ≠ [] → Forall fitsInt l →
  roundTrip (VInts t l) = Returns (VIntPtrs l).
Proof.
  intros Ht Hl Hfit. unfold roundTrip.
  rewrite createAttributeValue_VInts, bind_Returns by done.
  rewrite getItemValue_NS by (by destruct l).
  rewrite <- list_fmap_compose. do 2 f_equal.
  induction Hfit as [|n l Hn Hfit IH]; [done|]. simpl.
  rewrite Atoi_fmtInteger by done. simpl. f_equal.
  destruct l; [done|]. by apply IH.
Qed.

(** C7. The slice [[]int{1, 2, 3}] is encoded as the Number set "1", "2", "3",
    in that order, and that Number set is decoded to the integers 1, 2, 3 in
    the same order. *)
Theorem encode_decode_1_2_3 :
  createAttributeValue (VInts TInt [1; 2; 3]) = Returns (lit_NS ["1"; "2"; "3"])
  ∧ getItemValue (lit_NS ["1"; "2"; "3"]) = VIntPtrs [1; 2; 3]
  ∧ roundTrip (VInts TInt [1; 2; 3]) = Returns (VIntPtrs [1; 2; 3]).
Proof.
  split; [|split].
  - rewrite createAttributeValue_VInts by (unfold numberTypes; set_solver).
    reflexivity.
  - rewrite getItemValue_NS by done. reflexivity.
  - apply roundTrip_VInts; [unfold numberTypes; set_solver|done|].
    repeat constructor; unfold fitsInt, minInt, maxInt; lia.
Qed.

(** C9, at the input where the code departs from it. A record with a field
    holding a map whose type is not [map[string]interface{}] makes [Marshal]
    panic instead of returning a mapping with that field. *)
Theorem Marshal_foreign_map_panics :
  Marshal {["tags" := VOther reflect.Map]} = Panics InterfaceConversion.
Proof. reflexivity. Qed.

(** So does every record with such a field. *)
Lemma Marshal_panics_on_foreign_map (item : gmap string Any) key :
  item !! key = Some (VOther reflect.Map) → ∃ p, Marshal item = Panics p.
Proof.
  intros H.
  by apply (Marshal_Panics item key (VOther reflect.Map) InterfaceConversion).
Qed.

(** Apart from that, [Marshal] returns a mapping with exactly the fields of
    the record: on every record in whose values no foreign map occurs. *)
Lemma Marshal_keeps_every_field (item : gmap string Any) :
  (∀ key v, item !! key = Some v → noForeignMap v) →
  ∃ data, Marshal item = Returns data
    ∧ dom data = dom item
    ∧ ∀ key v, item !! key = Some v →
        ∃ av, createAttributeValue v = Returns av ∧ data !! key = Some av.
Proof.
  intros Hall.
  set (f := λ v, returned emptyAttributeValue (createAttributeValue v)).
  assert (Marshal item = Returns (f <$> item)) as HM.
  { apply Marshal_Returns. intros key v Hkv.
    destruct (createAttributeValue_returns v (Hall key v Hkv)) as [av Hav].
    unfold f. by rewrite Hav. }
  exists (f <$> item). split; [done|]. by apply Marshal_inv.
Qed.

End encoder_properties.

(** ** Closed instances *)

Lemma getItemValue_NS_keeps_every_element_witness :
  ["7"; "x"; "-3"] ≠ []
  ∧ ∃ data,
      getItemValue (lit_NS ["7"; "x"; "-3"]) = VIntPtrs data
      ∧ length data = length ["7"; "x"; "-3"]
      ∧ ∀ (i : nat) vString, ["7"; "x"; "-3"] !! i = Some vString →
          data !! i = Some (strconv.Atoi vString).1
          ∧ ((strconv.Atoi vString).2 = Some strconv.ErrSyntax →
             data !! i = Some 0)
          ∧ ((strconv.Atoi vString).2 = Some strconv.ErrRange →
             data !! i = Some maxInt ∨ data !! i = Some minInt).
Proof.
  split; [discriminate|].
  apply (getItemValue_NS_keeps_every_element ["7"; "x"; "-3"]). discriminate.
Defined.

(** C1 as the specification states it fails on the set "1", "x", "2": "x" is
    not an integer, and the decoder returns 1, 0, 2 where the specification
    has 1, 2. *)
Lemma getItemValue_NS_drops_nothing :
  (strconv.Atoi "x").2 = Some strconv.ErrSyntax
  ∧ getItemValue (lit_NS ["1"; "x"; "2"]) = VIntPtrs [1; 0; 2]
  ∧ parsedElements ["1"; "x"; "2"] = [1; 2]
  ∧ getItemValue (lit_NS ["1"; "x"; "2"])
    ≠ VIntPtrs (parsedElements ["1"; "x"; "2"]).
Proof.
  split; [reflexivity|]. split; [reflexivity|]. split; [reflexivity|].
  intros H. vm_compute in H. discriminate H.
Qed.

Lemma getItemValue_N_discards_the_error_witness :
  SDK.N (lit_N "1.5") = Some "1.5"
  ∧ getItemValue (lit_N "1.5") = VInt TInt (strconv.Atoi "1.5").1
  ∧ ((strconv.Atoi "1.5").2 = Some strconv.ErrSyntax →
     getItemValue (lit_N "1.5") = VInt TInt 0)
  ∧ ((strconv.Atoi "1.5").2 = Some strconv.ErrRange →
     getItemValue (lit_N "1.5") = VInt TInt maxInt
     ∨ getItemValue (lit_N "1.5") = VInt TInt minInt).
Proof.
  split; [reflexivity|].
  apply (getItemValue_N_discards_the_error (lit_N "1.5") "1.5"). reflexivity.
Defined.

(** C2 as the specification states it fails on the Number "1.5": it is not an
    integer, and the decoder returns the integer 0, the very value it returns
    for the Number "0". *)
Lemma getItemValue_N_fraction_is_zero :
  (strconv.Atoi "1.5").2 = Some strconv.ErrSyntax
  ∧ getItemValue (lit_N "1.5") = VInt TInt 0
  ∧ getItemValue (lit_N "1.5") = getItemValue (lit_N "0").
Proof. repeat split; reflexivity. Qed.

Lemma exampleRecord_supported : map_Forall (λ _ v, supported v) exampleRecord.
Proof.
  assert (∀ n, 0 ≤ n ≤ 10000 → fitsInt n) as Hfit
    by (unfold fitsInt, minInt, maxInt; lia).
  unfold exampleRecord.
  repeat apply map_Forall_insert_2; try apply map_Forall_empty.
  - constructor.
  - constructor; [unfold numberTypes; set_solver|apply Hfit; lia].
  - constructor.
  - constructor; [by apply insert_non_empty|].
    apply map_Forall_insert_2; [|apply map_Forall_empty].
    constructor; [unfold numberTypes; set_solver|apply Hfit; lia].
Qed.

Lemma roundTripRecord_supported_witness :
  map_Forall (λ _ v, supported v) exampleRecord
  ∧ roundTripRecord noSprintOther exampleRecord
    = Returns (scalarRoundTrip <$> exampleRecord).
Proof.
  split; [exact exampleRecord_supported|].
  apply (roundTripRecord_supported noSprintOther exampleRecord).
  exact exampleRecord_supported.
Defined.

Lemma roundTrip_int_witness :
  TInt64 ∈ numberTypes ∧ fitsInt (-42)
  ∧ createAttributeValue noSprintOther (VInt TInt64 (-42))
    = Returns (lit_N (fmt.fmtInteger (-42)))
  ∧ roundTrip noSprintOther (VInt TInt64 (-42)) = Returns (VInt TInt (-42)).
Proof.
  assert (TInt64 ∈ numberTypes) as Ht by (unfold numberTypes; set_solver).
  assert (fitsInt (-42)) as Hn by (unfold fitsInt, minInt, maxInt; lia).
  split; [exact Ht|]. split; [exact Hn|].
  exact (roundTrip_int noSprintOther TInt64 (-42) Ht Hn).
Defined.

(** C4 as the specification states it fails on [int16(5)]: an integer in the
    range of [int] of a type that the type switch does not list is encoded as
    the empty value, which decodes to nil. *)
Lemma roundTrip_int16_is_nil :
  fitsInt 5
  ∧ createAttributeValue noSprintOther (VInt TInt16 5) = Returns emptyAttributeValue
  ∧ roundTrip noSprintOther (VInt TInt16 5) = Returns Nil
  ∧ roundTrip noSprintOther (VInt TInt16 5) ≠ Returns (VInt TInt 5).
Proof.
  split; [unfold fitsInt, minInt, maxInt; lia|].
  split; [reflexivity|]. split; [reflexivity|]. discriminate.
Qed.

Lemma nonempty_binary_round_trip_witness :
  [104; 105] ≠ []
  ∧ roundTrip noSprintOther (VBytes [104; 105]) = Returns (VBytes [104; 105]).
Proof.
  split; [discriminate|].
  apply (empty_map_and_empty_binary_decode_to_nil noSprintOther). discriminate.
Defined.

Lemma NewKeySchema_first_two_witness :
  (0 < length exampleKeys)%nat
  ∧ NewKeySchema exampleKeys = Returns (take 2 exampleKeys)
  ∧ (length exampleKeys = 1%nat → take 2 exampleKeys = exampleKeys)
  ∧ ((1 < length exampleKeys)%nat → length (take 2 exampleKeys) = 2%nat).
Proof.
  assert (0 < length exampleKeys)%nat as H by (simpl; lia).
  split; [exact H|]. exact (NewKeySchema_first_two exampleKeys H).
Defined.

(** The end-to-end record of the specification: text, a number, a string set
    and a boolean. *)
Example Marshal_end_to_end :
  Marshal noSprintOther
    (<["name" := VString "Alice"]> (<["age" := VInt TInt 30]> (
     <["tags" := VStrings ["a"; "b"]]> (<["active" := VBool true]> ∅))))
  = Returns
    (<["name" := lit_S "Alice"]> (<["age" := lit_N "30"]> (
     <["tags" := lit_SS ["a"; "b"]]> (<["active" := lit_BOOL true]> ∅)))).
Proof. vm_compute. reflexivity. Qed.

(** The type switch on values it does not list, and on those it lists. *)
Example createAttributeValue_nil :
  createAttributeValue noSprintOther Nil = Returns emptyAttributeValue.
Proof. reflexivity. Qed.

Example createAttributeValue_func :
  createAttributeValue noSprintOther (VOther reflect.Func)
  = Returns emptyAttributeValue.
Proof. reflexivity. Qed.

Example createAttributeValue_int8_slice :
  createAttributeValue noSprintOther (VInts TInt8 [1; 2])
  = Returns emptyAttributeValue.
Proof. reflexivity. Qed.

Example createAttributeValue_uint64 :
  createAttributeValue noSprintOther (VInt TUint64 18446744073709551615)
  = Returns (lit_N "18446744073709551615").
Proof. reflexivity. Qed.

Example createAttributeValue_empty_map :
  createAttributeValue noSprintOther (VMap ∅) = Returns (lit_M ∅).
Proof. reflexivity. Qed.

(** The first populated slot wins, and lists are decoded element by element. *)
Example getItemValue_N_before_S :
  getItemValue (SDK.mkAttributeValue [] None [] [] None (Some "12") [] None
                  (Some "text") [])
  = VInt TInt 12.
Proof. reflexivity. Qed.

Example getItemValue_nested_list :
  getItemValue (lit_L [lit_S "a"; lit_L [lit_N "-2"; lit_BOOL true]])
  = VList [VString "a"; VList [VInt TInt (-2); VBool true]].
Proof. reflexivity. Qed.

Example getItemValue_out_of_range :
  getItemValue (lit_N "18446744073709551615") = VInt TInt maxInt.
Proof. reflexivity. Qed.

Example NewKeySchema_none : NewKeySchema [] = Panics IndexOutOfRange.
Proof. reflexivity. Qed.

(** What the round-trip properties leave out does not come back: an integer
    above the range of [int], an empty nested map. *)
Example roundTrip_uint64_max :
  roundTrip noSprintOther (VInt TUint64 18446744073709551615)
  = Returns (VInt TInt maxInt).
Proof. reflexivity. Qed.

Example roundTrip_empty_map :
  roundTrip noSprintOther (VMap ∅) = Returns Nil.
Proof. reflexivity. Qed.

(** * Further properties of the codec and of the builders *)

(** ** Induction on nested maps *)

Lemma mapDepth_lookup m key v :
  m !! key = Some v → (mapDepth v < mapDepth (VMap m))%nat.
Proof.
  simpl. revert key v.
  apply (map_fold_weak_ind (λ r m,
    ∀ key v, m !! key = Some v → (mapDepth v < S r)%nat)).
  - intros key v H. by rewrite lookup_empty in H.
  - intros i x m' r Hi IH key v Hkv.
    destruct (decide (i = key)) as [->|Hne].
    + rewrite lookup_insert_eq in Hkv. simplify_eq. lia.
    + rewrite lookup_insert_ne in Hkv by done. specialize (IH key v Hkv). lia.
Qed.

(** A property holds of every native value if it holds of every value that
    is not a [map[string]interface{}], and of such a map when it holds of its
    fields. *)
Lemma Any_nested_map_ind (P : Any → Prop) :
  (∀ v, (∀ m, v ≠ VMap m) → P v) →
  (∀ m, (∀ key v, m !! key = Some v → P v) → P (VMap m)) →
  ∀ v, P v.
Proof.
  intros Hleaf Hmap v.
  remember (mapDepth v) as n eqn:Hn. revert v Hn.
  induction n as [n IH] using lt_wf_ind. intros v ->.
  destruct v; try (by apply Hleaf).
  apply Hmap. intros key v Hkv.
  by apply (IH (mapDepth v) (mapDepth_lookup _ _ _ Hkv)).
Qed.

Lemma attributeDepth_lookup val m key x :
  SDK.M val = Some m → m !! key = Some x →
  (attributeDepth x < attributeDepth val)%nat.
Proof.
  destruct val as [b bo bs l mo n ns null s ss]. simpl. intros ->.
  revert key x.
  apply (map_fold_weak_ind (λ r m,
    ∀ key x, m !! key = Some x → (attributeDepth x < S r)%nat)).
  - intros key x H. by rewrite lookup_empty in H.
  - intros i y m' r Hi IH key x Hkx.
    destruct (decide (i = key)) as [->|Hne].
    + rewrite lookup_insert_eq in Hkx. simplify_eq. lia.
    + rewrite lookup_insert_ne in Hkx by done. specialize (IH key x Hkx). lia.
Qed.

Lemma AttributeValue_nested_map_ind (P : SDK.AttributeValue → Prop) :
  (∀ val,
     (∀ m key x, SDK.M val = Some m → m !! key = Some x → P x) → P val) →
  ∀ val, P val.
Proof.
  intros Hstep val.
  remember (attributeDepth val) as n eqn:Hn. revert val Hn.
  induction n as [n IH] using lt_wf_ind. intros val ->.
  apply Hstep. intros m key x HM Hkx.
  by apply (IH (attributeDepth x) (attributeDepth_lookup _ _ _ _ HM Hkx)).
Qed.

(** ** More on the decoder *)

Lemma int64_fits z : fitsInt (strconv.int64 z).
Proof.
  unfold fitsInt, minInt, maxInt, strconv.int64.
  pose proof (Z.mod_pos_bound (z + 2 ^ 63) (2 ^ 64) ltac:(lia)). lia.
Qed.

(** Whatever the text, the value [Atoi] returns is in the range of [int]. *)
Lemma Atoi_fits s : fitsInt (strconv.Atoi s).1.
Proof.
  assert (fitsInt 0) as H0 by (unfold fitsInt, minInt, maxInt; lia).
  unfold strconv.Atoi, strconv.ParseInt. destruct s as [|c rest]; [done|].
  destruct (strconv.ParseUint _ _) as [un [[]|]]; [done| |];
    repeat case_match; simpl; apply int64_fits.
Qed.

Lemma getItemValue_SS l :
  getItemValue (lit_SS l) = match l with [] => Nil | _ => VStringPtrs l end.
Proof. destruct l; [done|]. simpl. by rewrite appendEach_id. Qed.

Lemma getItemValue_BS l :
  getItemValue (lit_BS l) = match l with [] => Nil | _ => VByteSlices l end.
Proof. destruct l; [done|]. simpl. by rewrite appendEach_id. Qed.

(** X1. An integer that the decoder returns, alone or in a decoded Number set,
    is an [int] in the range of [int], whatever text the slots hold. *)
Theorem getItemValue_integers_fit (val : SDK.AttributeValue) :
  match getItemValue val with
  | VInt t n => t = TInt ∧ fitsInt n
  | VIntPtrs data => Forall fitsInt data
  | _ => True
  end.
Proof.
  destruct val as [b bo bs l mo n ns null s ss]. simpl.
  repeat case_match; simplify_eq; try done.
  - split; [done|apply Atoi_fits].
  - rewrite appendEach_fmap. apply Forall_fmap, Forall_forall.
    intros x _. apply Atoi_fits.
  - rewrite appendEach_fmap. apply Forall_fmap, Forall_forall.
    intros x _. apply Atoi_fits.
Qed.

(** X2. When a scalar slot ([N], [S], [BOOL] or a non-empty [B]) is populated,
    the decoded value depends on the scalar slots alone: two attribute values
    that agree on them decode alike, whatever their set, map and list slots
    hold. *)
Theorem getItemValue_scalar_first (val val' : SDK.AttributeValue) :
  SDK.N val = SDK.N val' → SDK.S val = SDK.S val' →
  SDK.BOOL val = SDK.BOOL val' → SDK.B val = SDK.B val' →
  is_Some (SDK.N val) ∨ is_Some (SDK.S val) ∨ is_Some (SDK.BOOL val)
  ∨ SDK.B val ≠ [] →
  getItemValue val = getItemValue val'.
Proof.
  destruct val as [b bo bs l mo n ns null s ss].
  destruct val' as [b' bo' bs' l' mo' n' ns' null' s' ss']. simpl.
  intros <- <- <- <- H.
  destruct n; [done|]. destruct s; [done|]. destruct bo; [done|].
  destruct b as [|x b]; [|done].
  destruct H as [[? [=]]|[[? [=]]|[[? [=]]|?]]]. done.
Qed.

(** X3. The decoder never reads the [NULL] slot: changing it does not change
    the decoded value, and an attribute value holding only [NULL] decodes to
    nil. *)
Theorem getItemValue_ignores_NULL b bo bs l mo n ns (null null' : option bool) s ss :
  getItemValue (SDK.mkAttributeValue b bo bs l mo n ns null s ss)
  = getItemValue (SDK.mkAttributeValue b bo bs l mo n ns null' s ss)
  ∧ getItemValue (SDK.mkAttributeValue [] None [] [] None None [] null None [])
    = Nil.
Proof. split; reflexivity. Qed.

(** X4. A List is decoded element by element: one decoded value per element,
    in the order of the list, each by [getItemValue] itself; the empty List
    decodes to nil. *)
Theorem getItemValue_L (l : list SDK.AttributeValue) :
  getItemValue (lit_L l)
  = match l with [] => Nil | _ => VList (getItemValue <$> l) end.
Proof.
  destruct l as [|x l]; [done|].
  transitivity (VList (appendEach getItemValue (x :: l))); [done|].
  by rewrite appendEach_fmap.
Qed.

(** No decoded value holds a map of a foreign type. *)
Lemma getItemValue_noForeignMap val : noForeignMap (getItemValue val).
Proof.
  induction val as [val IH] using AttributeValue_nested_map_ind.
  destruct val as [b bo bs l mo n ns null s ss]. simpl in IH. simpl.
  destruct n; [by apply noForeignMap_leaf|].
  destruct s; [by apply noForeignMap_leaf|].
  destruct bo; [by apply noForeignMap_leaf|].
  case_bool_decide; [by apply noForeignMap_leaf|].
  assert (∀ m : gmap string SDK.AttributeValue, Some m = mo →
    noForeignMap
      (VMap (map_fold (λ key val data, <[key := getItemValue val]> data) ∅ m)))
    as Hmap.
  { intros m <-. rewrite map_fold_insert_fmap. apply noForeignMap_map.
    intros key v Hkv. apply lookup_fmap_Some in Hkv as (x & <- & Hx).
    by apply (IH m key). }
  destruct mo as [m|]; repeat case_bool_decide;
    try (by apply Hmap); by apply noForeignMap_leaf.
Qed.

(** ** More on the key schema builder *)

(** X5. [NewKeySchema] panics (index out of range) exactly when it is given
    no element. Otherwise it returns a prefix of its arguments of at most two
    elements, and building a schema from that result returns it unchanged. *)
Theorem NewKeySchema_returns_prefix (elements : list (option SDK.KeySchemaElement)) :
  (elements = [] ∧ NewKeySchema elements = Panics IndexOutOfRange)
  ∨ (elements ≠ []
     ∧ ∃ schema, NewKeySchema elements = Returns schema
         ∧ schema `prefix_of` elements
         ∧ (1 ≤ length schema ≤ 2)%nat
         ∧ NewKeySchema schema = Returns schema).
Proof.
  destruct elements as [|e0 [|e1 rest]].
  - by left.
  - right. split; [done|]. exists [e0]. repeat split; simpl; try done; lia.
  - right. split; [done|]. exists [e0; e1]. repeat split; simpl; try lia.
    by exists rest.
Qed.

(** ** The attribute definition builders *)

(** X6. [NewAttributeDefinition] never returns nil, and what it returns is
    either complete or empty: the name and the type given when the type is
    one of the nine attribute types, and neither of them otherwise (the name
    is dropped with the type). *)
Theorem NewAttributeDefinition_all_or_nothing (attrName attrType : string) :
  ∃ d, NewAttributeDefinition attrName attrType = Some d
    ∧ (AttributeDefinition.AttributeName d = None
       ↔ AttributeDefinition.AttributeType d = None)
    ∧ (AttributeDefinition.AttributeType d = None ↔ attrType ∉ attributeTypes)
    ∧ (attrType ∈ attributeTypes →
       d = AttributeDefinition.mk (Some attrName) (Some attrType)).
Proof.
  unfold NewAttributeDefinition.
  case_bool_decide as Ht; eexists; (split; [reflexivity|]); simpl;
    repeat split; try done; try (by intros []); intros; by simplify_eq.
Qed.

(** X7. The four typed builders always return a complete definition: the
    types they pass ("S", "N", "B", "BOOL") are among the accepted ones, so
    the given name is never dropped. *)
Theorem typed_attribute_builders_complete (attrName : string) :
  NewStringAttribute attrName
  = Some (AttributeDefinition.mk (Some attrName) (Some "S"))
  ∧ NewNumberAttribute attrName
    = Some (AttributeDefinition.mk (Some attrName) (Some "N"))
  ∧ NewByteAttribute attrName
    = Some (AttributeDefinition.mk (Some attrName) (Some "B"))
  ∧ NewBoolAttribute attrName
    = Some (AttributeDefinition.mk (Some attrName) (Some "BOOL")).
Proof. repeat split; reflexivity. Qed.

(** ** More on the encoder *)

Section encoder_more.

Variable SprintOther : Any → string.

Local Abbreviation Sprint := (Sprint SprintOther).
Local Abbreviation MarshalStringSlice := (MarshalStringSlice SprintOther).
Local Abbreviation createAttributeValue := (createAttributeValue SprintOther).
Local Abbreviation Marshal := (Marshal SprintOther).
Local Abbreviation roundTrip := (roundTrip SprintOther).
Local Abbreviation roundTripRecord := (roundTripRecord SprintOther).

Lemma createPointerSliceString_id values : createPointerSliceString values = values.
Proof. apply appendEach_id. Qed.

(** X8. Every string, the empty string included, and every boolean comes
    back unchanged from encoding followed by decoding. *)
Theorem text_and_booleans_round_trip (s : string) (b : bool) :
  roundTrip (VString s) = Returns (VString s)
  ∧ roundTrip (VBool b) = Returns (VBool b).
Proof. split; reflexivity. Qed.

Lemma roundTrip_VStrings l :
  createAttributeValue (VStrings l) = Returns (lit_SS l)
  ∧ roundTrip (VStrings l)
    = Returns (match l with [] => Nil | _ => VStringPtrs l end).
Proof.
  assert (createAttributeValue (VStrings l) = Returns (lit_SS l)) as Henc.
  { simpl. by rewrite createPointerSliceString_id. }
  split; [done|]. unfold roundTrip.
  by rewrite Henc, bind_Returns, getItemValue_SS.
Qed.

(** X9. A slice of strings is encoded as the String set of the same strings in
    the same order, duplicates kept; it is decoded to those strings again (as
    a [[]*string]), except the empty slice, which is decoded to nil. *)
Theorem string_slice_round_trip (l : list string) :
  createAttributeValue (VStrings l) = Returns (lit_SS l)
  ∧ roundTrip (VStrings l)
    = Returns (match l with [] => Nil | _ => VStringPtrs l end).
Proof.
  destruct (roundTrip_VStrings l) as [Henc Hrt]. by rewrite Henc, Hrt.
Qed.

(** X10. A slice of byte buffers is encoded as the Binary set of the same
    buffers in the same order and comes back unchanged, empty buffers in it
    included; the empty slice is decoded to nil. *)
Theorem byte_slices_round_trip (l : list (list Z)) :
  createAttributeValue (VByteSlices l) = Returns (lit_BS l)
  ∧ roundTrip (VByteSlices l)
    = Returns (match l with [] => Nil | _ => VByteSlices l end).
Proof.
  split; [done|]. unfold roundTrip.
  change (createAttributeValue (VByteSlices l)) with (Returns (lit_BS l)).
  by rewrite bind_Returns, getItemValue_BS.
Qed.

(** X11. A slice of integers of a type the encoder lists, all in the range
    of [int], is encoded as the Number set of their decimal texts and decoded
    to the same integers in the same order (as a [[]*int]); the empty slice
    is decoded to nil. *)
Theorem number_slice_round_trip (t : IntType) (l : list Z) :
  t ∈ numberTypes → Forall fitsInt l →
  createAttributeValue (VInts t l) = Returns (lit_NS (fmt.fmtInteger <$> l))
  ∧ roundTrip (VInts t l)
    = Returns (match l with [] => Nil | _ => VIntPtrs l end).
Proof.
  intros Ht Hfit. split; [by apply createAttributeValue_VInts|].
  destruct l as [|n l].
  - unfold roundTrip. by rewrite createAttributeValue_VInts, bind_Returns.
  - by apply roundTrip_VInts.
Qed.

(** X12. [MarshalStringSlice] prints a slice of integers of any integer type,
    the ones the encoder does not list included: one text per element, in
    order, and [Atoi] reads each text back as the element when the element
    is in the range of [int]. *)
Theorem MarshalStringSlice_integers (t : IntType) (l : list Z) :
  Forall fitsInt l →
  ∃ data, MarshalStringSlice (VInts t l) = Returns data
    ∧ length data = length l
    ∧ strconv.Atoi <$> data = (λ n, (n, None)) <$> l.
Proof.
  intros Hfit. exists (fmt.fmtInteger <$> l). split; [|split].
  - unfold MarshalStringSlice. simpl.
    by rewrite appendEach_fmap, <- list_fmap_compose.
  - by rewrite length_fmap.
  - rewrite <- list_fmap_compose.
    induction Hfit as [|n l Hn Hfit IH]; [done|]. rewrite !fmap_cons.
    f_equal; [by apply Atoi_fmtInteger|done].
Qed.

(** X13. Given a value that is not a slice, [MarshalStringSlice] panics when
    the value is the nil interface and returns no text otherwise. *)
Theorem MarshalStringSlice_not_a_slice (item : Any) :
  Kind_of item ≠ reflect.Slice →
  MarshalStringSlice item
  = match item with Nil => Panics NilDereference | _ => Returns [] end.
Proof.
  unfold MarshalStringSlice. intros Hk.
  destruct item as [|s|t n|t f|b|l|t l|t l|l|l|l|l|m|k];
    try done; try (by destruct t).
  simpl in Hk. by destruct k.
Qed.

(** The attribute values the encoder builds. *)
Lemma createAttributeValue_shape v av :
  createAttributeValue v = Returns av →
  av = emptyAttributeValue ∨ (∃ x, av = lit_S x) ∨ (∃ x, av = lit_N x)
  ∨ (∃ x, av = lit_B x) ∨ (∃ x, av = lit_BOOL x) ∨ (∃ x, av = lit_SS x)
  ∨ (∃ x, av = lit_BS x) ∨ (∃ x, av = lit_NS x) ∨ (∃ x, av = lit_M x).
Proof.
  destruct v as [|s|t n|t f|b|l|t l|t l|l|l|l|l|m|k].
  14: destruct k.
  all: try destruct t.
  all: try (rewrite createAttributeValue_VMap; destruct (Marshal m)).
  all: simpl; intros H; simplify_eq; eauto 12.
Qed.

(** X14. What the encoder returns has at most one populated slot, and that
    slot is never [L] nor [NULL]. *)
Theorem createAttributeValue_one_slot (v : Any) (av : SDK.AttributeValue) :
  createAttributeValue v = Returns av →
  (populatedSlots av ≤ 1)%nat ∧ SDK.L av = [] ∧ SDK.NULL av = None.
Proof.
  intros H. apply createAttributeValue_shape in H.
  destruct H as [->|[[x ->]|[[x ->]|[[x ->]|[[x ->]|[[x ->]|[[x ->]|[[x ->]
    |[x ->]]]]]]]]];
    unfold populatedSlots; simpl; repeat case_match; (split; [lia|done]).
Qed.

Lemma Kind_Map_cases v :
  (∀ m, v ≠ VMap m) → Kind_of v = reflect.Map → v = VOther reflect.Map.
Proof.
  destruct v as [|s|t n|t f|b|l|t l|t l|l|l|l|l|m|k]; simpl; intros Hm Hk;
    try discriminate; try (destruct t; discriminate).
  - by destruct (Hm m).
  - by subst.
Qed.

Lemma Marshal_Panics_inv item p :
  Marshal item = Panics p →
  ∃ key v, item !! key = Some v ∧ createAttributeValue v = Panics p.
Proof.
  unfold Marshal. revert p.
  apply (map_fold_weak_ind (λ r m, ∀ p, r = Panics p →
    ∃ key v, m !! key = Some v ∧ createAttributeValue v = Panics p)).
  - done.
  - intros i x m r Hi IH p.
    destruct r as [data|p0]; simpl.
    + destruct (createAttributeValue x) as [av|p1] eqn:Hx; simpl; [done|].
      intros [= <-]. exists i, x. by rewrite lookup_insert_eq.
    + intros [= <-]. destruct (IH p0 eq_refl) as (key & v & Hkv & Hv).
      exists key, v. split; [|done].
      rewrite lookup_insert_ne; [done|]. intros ->. congruence.
Qed.

(** X15. The encoder either returns or panics on the type assertion, and it
    panics exactly on the values in which a map of a type other than
    [map[string]interface{}] occurs, itself or as a field of nested maps;
    slices and lists are never searched. *)
Theorem createAttributeValue_returns_or_panics (v : Any) :
  (noForeignMap v ∧ ∃ av, createAttributeValue v = Returns av)
  ∨ (holdsForeignMap v ∧ createAttributeValue v = Panics InterfaceConversion).
Proof.
  induction v as [v Hleaf|m IH] using Any_nested_map_ind.
  - destruct (Kind_of v) eqn:Hk;
      try (left;
           assert (noForeignMap v) as Hv
             by (apply noForeignMap_leaf; [done|by rewrite Hk]);
           split; [done|by apply createAttributeValue_returns]).
    right. rewrite (Kind_Map_cases v Hleaf Hk). split; [constructor|done].
  - rewrite createAttributeValue_VMap.
    destruct (Marshal m) as [data|p] eqn:HM.
    + left. split; [|by eexists].
      apply noForeignMap_map. intros key v Hkv.
      destruct (Marshal_inv _ _ _ HM) as [_ Hall].
      destruct (Hall key v Hkv) as (av & Hav & _).
      destruct (IH key v Hkv) as [[Hv _]|[_ Hp]]; [done|congruence].
    + right. destruct (Marshal_Panics_inv _ _ HM) as (key & v & Hkv & Hv).
      destruct (IH key v Hkv) as [[_ [av Hav]]|[Hf Hp]]; [congruence|].
      split; [by eapply holdsForeignMap_field|].
      simpl. congruence.
Qed.

(** X16. A record in whose values no foreign map occurs comes back from
    [Marshal] followed by [Unmarshal] with exactly its keys, each holding the
    decoding of what the encoder returned for the field; in particular a
    field that is encoded as the empty value is kept, with the value nil. *)
Theorem roundTripRecord_keeps_every_key (m : gmap string Any) :
  map_Forall (λ _ v, noForeignMap v) m →
  ∃ r, roundTripRecord m = Returns r
    ∧ dom r = dom m
    ∧ (∀ key v, m !! key = Some v →
         ∃ av, createAttributeValue v = Returns av
           ∧ r !! key = Some (getItemValue av))
    ∧ (∀ key v, m !! key = Some v →
         createAttributeValue v = Returns emptyAttributeValue →
         r !! key = Some Nil).
Proof.
  intros Hall.
  destruct (Marshal_keeps_every_field SprintOther m Hall)
    as (data & HM & Hdom & Hdata).
  exists (Unmarshal (Some data)). unfold roundTripRecord.
  rewrite HM, bind_Returns, Unmarshal_fmap.
  assert (∀ key v, m !! key = Some v →
    ∃ av, createAttributeValue v = Returns av
      ∧ (getItemValue <$> data) !! key = Some (getItemValue av)) as Hfields.
  { intros key v Hkv. destruct (Hdata key v Hkv) as (av & Hav & Hk).
    exists av. split; [done|]. by rewrite lookup_fmap, Hk. }
  split; [done|]. split; [by rewrite dom_fmap_L|]. split; [done|].
  intros key v Hkv Hv. destruct (Hfields key v Hkv) as (av & Hav & Hk).
  rewrite Hk. rewrite Hv in Hav. injection Hav as <-. reflexivity.
Qed.

(** X17. Whatever [Unmarshal] returns can be given to [Marshal]: encoding a
    decoded record never panics and yields a mapping with the same keys. *)
Theorem Marshal_Unmarshal_returns (item : option (gmap string SDK.AttributeValue)) :
  ∃ data, Marshal (Unmarshal item) = Returns data
    ∧ dom data = dom (Unmarshal item).
Proof.
  destruct (Marshal_keeps_every_field SprintOther (Unmarshal item))
    as (data & HM & Hdom & _); [|by exists data].
  intros key v Hkv. destruct item as [m|].
  - rewrite Unmarshal_fmap in Hkv.
    apply lookup_fmap_Some in Hkv as (x & <- & _).
    apply getItemValue_noForeignMap.
  - unfold Unmarshal in Hkv. by rewrite lookup_empty in Hkv.
Qed.

(** X18. The sequences the decoder returns for a Number set, a String set and
    a List ([[]*int], [[]*string], [[]interface{}]) match no case of the
    encoder: they are encoded as the empty value, so a slice of strings that
    survives one round trip comes back as nil from a second one. *)
Theorem decoded_sequences_do_not_reencode
    (ints : list Z) (strings : list string) (values : list Any) :
  createAttributeValue (VIntPtrs ints) = Returns emptyAttributeValue
  ∧ createAttributeValue (VStringPtrs strings) = Returns emptyAttributeValue
  ∧ createAttributeValue (VList values) = Returns emptyAttributeValue
  ∧ (roundTrip (VStrings strings) ≫= roundTrip) = Returns Nil.
Proof.
  split; [done|]. split; [done|]. split; [done|].
  destruct (roundTrip_VStrings strings) as [_ ->].
  rewrite bind_Returns. by destruct strings.
Qed.

(** X19. A floating-point number is encoded in the Number slot as the text
    [fmt.Sprint] prints for it, and always comes back as an [int] in the
    range of [int], the one [Atoi] returns for that text: never as a float. *)
Theorem float_round_trip_is_int (t : FloatType) (f : spec_float) :
  createAttributeValue (VFloat t f)
  = Returns (lit_N (SprintOther (VFloat t f)))
  ∧ ∃ n, roundTrip (VFloat t f) = Returns (VInt TInt n)
      ∧ n = (strconv.Atoi (SprintOther (VFloat t f))).1
      ∧ fitsInt n.
Proof.
  split; [done|]. eexists. split; [reflexivity|]. split; [done|].
  apply Atoi_fits.
Qed.

End encoder_more.

(** ** Closed instances of the further properties *)

Lemma getItemValue_scalar_first_witness :
  getItemValue
    (SDK.mkAttributeValue [] None [] [] None None ["1"] None (Some "a") ["x"])
  = getItemValue (lit_S "a").
Proof.
  apply (getItemValue_scalar_first
    (SDK.mkAttributeValue [] None [] [] None None ["1"] None (Some "a") ["x"])
    (lit_S "a")); try reflexivity.
  right; left. by eexists.
Defined.

Lemma number_slice_round_trip_witness :
  createAttributeValue noSprintOther (VInts TInt32 [3; -1])
  = Returns (lit_NS (fmt.fmtInteger <$> [3; -1]))
  ∧ roundTrip noSprintOther (VInts TInt32 [3; -1]) = Returns (VIntPtrs [3; -1]).
Proof.
  apply (number_slice_round_trip noSprintOther TInt32 [3; -1]).
  - unfold numberTypes. set_solver.
  - repeat constructor; unfold fitsInt, minInt, maxInt; lia.
Defined.

Lemma MarshalStringSlice_integers_witness :
  ∃ data, MarshalStringSlice noSprintOther (VInts TInt8 [5; -7]) = Returns data
    ∧ length data = length [5; -7]
    ∧ strconv.Atoi <$> data = (λ n, (n, None)) <$> [5; -7].
Proof.
  apply (MarshalStringSlice_integers noSprintOther TInt8 [5; -7]).
  repeat constructor; unfold fitsInt, minInt, maxInt; lia.
Defined.

Lemma MarshalStringSlice_not_a_slice_witness :
  MarshalStringSlice noSprintOther (VString "x") = Returns [].
Proof.
  apply (MarshalStringSlice_not_a_slice noSprintOther (VString "x")).
  discriminate.
Defined.

Lemma createAttributeValue_one_slot_witness :
  (populatedSlots (lit_SS ["a"; "b"]) ≤ 1)%nat
  ∧ SDK.L (lit_SS ["a"; "b"]) = [] ∧ SDK.NULL (lit_SS ["a"; "b"]) = None.
Proof.
  apply (createAttributeValue_one_slot noSprintOther (VStrings ["a"; "b"])).
  reflexivity.
Defined.

Lemma roundTripRecord_keeps_every_key_witness :
  ∃ r, roundTripRecord noSprintOther exampleLooseRecord = Returns r
    ∧ dom r = dom exampleLooseRecord
    ∧ (∀ key v, exampleLooseRecord !! key = Some v →
         ∃ av, createAttributeValue noSprintOther v = Returns av
           ∧ r !! key = Some (getItemValue av))
    ∧ (∀ key v, exampleLooseRecord !! key = Some v →
         createAttributeValue noSprintOther v = Returns emptyAttributeValue →
         r !! key = Some Nil).
Proof.
  apply (roundTripRecord_keeps_every_key noSprintOther exampleLooseRecord).
  unfold exampleLooseRecord.
  repeat apply map_Forall_insert_2; try apply map_Forall_empty;
    by apply noForeignMap_leaf.
Defined.
